(** * The CSV menu cleaner, [scripts/clean-csv-menu-data-all-columns.py]

    A shallow embedding of the script and the properties its specification
    states about it.  Python [str] values are sequences of Unicode code
    points; character predicates ([str.isspace], the regex classes [\s] and
    [\d]) are the ones CPython uses for [str] patterns, with the tables of
    Unicode 14.  Statements that print, read or write run in a small state
    and exception monad over the standard output and the file system. *)

From Stdlib Require Import Strings.String Strings.Ascii NArith.
From stdpp Require Import base option list gmap.

Local Open Scope N_scope.
Local Open Scope nat_scope.

(** ** Strings *)

(** A Python [str]: a list of code points. *)
Abbreviation pystr := (list N).

(** The code points of an ASCII literal. *)
Fixpoint py (s : string) : pystr :=
  match s with
  | EmptyString => []
  | String a s' => N_of_ascii a :: py s'
  end.

Definition str_eqb (a b : pystr) : bool :=
  bool_decide (a = b).

(** [not s] for a string: true exactly on the empty string. *)
Definition is_empty {A} (l : list A) : bool :=
  match l with [] => true | _ => false end.

Definition in_range (lo hi c : N) : bool :=
  (lo <=? c)%N && (c <=? hi)%N.

(** Whitespace as [str.isspace], [str.strip()] and [\s] see it. *)
Definition is_space (c : N) : bool :=
  in_range 9 13 c || in_range 28 32 c || (c =? 133)%N || (c =? 160)%N
  || (c =? 5760)%N || in_range 8192 8202 c || in_range 8232 8233 c
  || (c =? 8239)%N || (c =? 8287)%N || (c =? 12288)%N.

(** The decimal digits [\d] matches in a [str] pattern: category Nd. *)
Definition decimal_ranges : list (N * N) :=
  [ (48, 57); (1632, 1641); (1776, 1785); (1984, 1993); (2406, 2415);
    (2534, 2543); (2662, 2671); (2790, 2799); (2918, 2927); (3046, 3055);
    (3174, 3183); (3302, 3311); (3430, 3439); (3558, 3567); (3664, 3673);
    (3792, 3801); (3872, 3881); (4160, 4169); (4240, 4249); (6112, 6121);
    (6160, 6169); (6470, 6479); (6608, 6617); (6784, 6793); (6800, 6809);
    (6992, 7001); (7088, 7097); (7232, 7241); (7248, 7257); (42528, 42537);
    (43216, 43225); (43264, 43273); (43472, 43481); (43504, 43513);
    (43600, 43609); (44016, 44025); (65296, 65305); (66720, 66729);
    (68912, 68921); (69734, 69743); (69872, 69881); (69942, 69951);
    (70096, 70105); (70384, 70393); (70736, 70745); (70864, 70873);
    (71248, 71257); (71360, 71369); (71472, 71481); (71904, 71913);
    (72016, 72025); (72784, 72793); (73040, 73049); (73120, 73129);
    (92768, 92777); (92864, 92873); (93008, 93017); (120782, 120831);
    (123200, 123209); (123632, 123641); (125264, 125273);
    (130032, 130041) ]%N.

Definition is_decimal (c : N) : bool :=
  existsb (fun r => in_range r.1 r.2 c) decimal_ranges.

Definition is_char (x : N) (c : N) : bool := (c =? x)%N.

(** [s.isspace()]: non-empty and whitespace throughout. *)
Definition isspace (s : pystr) : bool :=
  negb (is_empty s) && forallb is_space s.

(** *** [strip] *)

Fixpoint lstrip_by (p : N -> bool) (s : pystr) : pystr :=
  match s with
  | [] => []
  | c :: t => if p c then lstrip_by p t else s
  end.

Definition rstrip_by (p : N -> bool) (s : pystr) : pystr :=
  rev (lstrip_by p (rev s)).

Definition strip_by (p : N -> bool) (s : pystr) : pystr :=
  rstrip_by p (lstrip_by p s).

(** [s.strip()] *)
Definition strip (s : pystr) : pystr := strip_by is_space s.

(** [s.strip(chars)] *)
Definition strip_chars (chars : pystr) (s : pystr) : pystr :=
  strip_by (fun c => existsb (N.eqb c) chars) s.

(** *** Substrings *)

(** [Some (len old)] when [old] starts [s]. *)
Fixpoint prefix_len (old s : pystr) : option nat :=
  match old with
  | [] => Some 0
  | x :: old' =>
      match s with
      | [] => None
      | c :: t => if (c =? x)%N then S <$> prefix_len old' t else None
      end
  end.

(** [sub in s] *)
Fixpoint contains (sub s : pystr) : bool :=
  match prefix_len sub s with
  | Some _ => true
  | None => match s with [] => false | _ :: t => contains sub t end
  end.

(** Left-to-right replacement of non-overlapping matches, shared by
    [str.replace] and [re.sub].  [m s] is the length of the match that
    starts [s], if there is one; [skip] counts the characters of the current
    match still to be passed over.  An empty match is replaced and the scan
    moves one character on. *)
Fixpoint scan_replace (m : pystr -> option nat) (repl : pystr)
    (s : pystr) (skip : nat) {struct s} : pystr :=
  match skip with
  | S k =>
      match s with
      | [] => []
      | _ :: t => scan_replace m repl t k
      end
  | O =>
      match m s with
      | Some (S k) =>
          repl ++ match s with
                  | [] => []
                  | _ :: t => scan_replace m repl t k
                  end
      | Some O =>
          repl ++ match s with
                  | [] => []
                  | c :: t => c :: scan_replace m repl t 0
                  end
      | None =>
          match s with
          | [] => []
          | c :: t => c :: scan_replace m repl t 0
          end
      end
  end.

(** [s.replace(old, new)] *)
Definition str_replace (old new s : pystr) : pystr :=
  scan_replace (prefix_len old) new s 0.

(** ** Regular expressions

    The patterns of the script are sequences of character classes, each
    taken once, zero or more times ([*]) or one or more times ([+]), all
    greedy.  The matcher backtracks as [re] does: a repetition takes as many
    characters as it can and gives them back one at a time while the rest of
    the pattern fails. *)

Inductive atom :=
  | One (cls : N -> bool)
  | Star (cls : N -> bool)
  | Plus (cls : N -> bool).

Definition regex := list atom.

Fixpoint star_len (cls : N -> bool) (k : pystr -> option nat)
    (s : pystr) : option nat :=
  match s with
  | c :: t =>
      if cls c then
        match star_len cls k t with
        | Some n => Some (S n)
        | None => k s
        end
      else k s
  | [] => k s
  end.

(** The length of the match of [p] that starts [s]. *)
Fixpoint match_len (p : regex) (s : pystr) : option nat :=
  match p with
  | [] => Some 0
  | One cls :: p' =>
      match s with
      | c :: t => if cls c then S <$> match_len p' t else None
      | [] => None
      end
  | Star cls :: p' => star_len cls (match_len p') s
  | Plus cls :: p' =>
      match s with
      | c :: t => if cls c then S <$> star_len cls (match_len p') t else None
      | [] => None
      end
  end.

(** [re.sub(p, repl, s)] *)
Definition re_sub (p : regex) (repl s : pystr) : pystr :=
  scan_replace (match_len p) repl s 0.

(** ** The cleaner's tables *)

Definition UNWANTED_PHRASES : list pystr :=
  [ py "Plus small";
    py "Thumb up outline";
    py "No. 1 most liked";
    py "No. 2 most liked";
    py "No. 3 most liked" ].

(** [\d+%] *)
Definition re_percentage : regex := [Plus is_decimal; One (is_char 37)].
(** [\(\d+\)] *)
Definition re_count : regex :=
  [One (is_char 40); Plus is_decimal; One (is_char 41)].

Definition REGEX_PATTERNS : list regex := [re_percentage; re_count].

(** [;\s*;] *)
Definition re_dup_semicolon : regex :=
  [One (is_char 59); Star is_space; One (is_char 59)].
(** [,\s*,] *)
Definition re_dup_comma : regex :=
  [One (is_char 44); Star is_space; One (is_char 44)].
(** [\s+] *)
Definition re_spaces : regex := [Plus is_space].
(** [\(\s*\)] *)
Definition re_empty_parens : regex :=
  [One (is_char 40); Star is_space; One (is_char 41)].

(** ** [clean_field] *)

Definition remove_phrases (s : pystr) : pystr :=
  fold_left (fun cleaned phrase => str_replace phrase [] cleaned)
    UNWANTED_PHRASES s.

Definition remove_patterns (s : pystr) : pystr :=
  fold_left (fun cleaned pattern => re_sub pattern [] cleaned)
    REGEX_PATTERNS s.

(** The test of line 57: the field looks like a tags field. *)
Definition looks_like_tags (field_value : pystr) : bool :=
  contains (py ";") field_value
  || existsb (fun phrase => contains phrase field_value) UNWANTED_PHRASES.

(** Lines 59-67. *)
Definition tidy_tags (cleaned : pystr) : pystr :=
  let cleaned := re_sub re_dup_semicolon (py ";") cleaned in
  let cleaned := re_sub re_dup_comma (py ",") cleaned in
  let cleaned := re_sub re_spaces (py " ") cleaned in
  let cleaned := strip_chars (py " ;,") cleaned in
  strip (re_sub re_empty_parens [] cleaned).

Definition clean_field (field_value : pystr) : pystr :=
  if is_empty field_value then field_value
  else
    let cleaned := field_value in
    if existsb (str_eqb (strip cleaned)) UNWANTED_PHRASES then []
    else
      let cleaned := remove_phrases cleaned in
      let cleaned := remove_patterns cleaned in
      let cleaned :=
        if looks_like_tags field_value then tidy_tags cleaned
        else strip cleaned in
      if is_empty cleaned || isspace cleaned then [] else cleaned.

(** ** Input and output

    A file holds the rows [csv.reader] reads from it and [csv.writer] writes
    to it; a directory is a path that exists and that [open] refuses.

    The file system is kept as small as the properties below need.  A path
    is the string the script is given, taken as [pathlib] would print it,
    and two paths are the same file when they are the same string.  Of the
    ways [open], [csv.reader] and [print] can fail, those modelled are the
    missing input file and the directory in place of a file; a missing
    parent directory of the output, undecodable or oversized input and an
    output stream that cannot encode a message are left out.  The
    properties of [process_csv] are stated of runs that get past [open]:
    what is written and printed there does not depend on these. *)

Abbreviation row := (list pystr).
Abbreviation path := pystr.

Inductive entry :=
  | CsvFile (rows : list row)
  | Directory.

Record world := World {
  stdout : list pystr;          (* one element for each [print] *)
  files : gmap path entry
}.

Inductive exn :=
  | FileNotFoundError (filename : path)
  | IsADirectoryError (filename : path)
  | IndexError
  | SystemExit (code : nat).

Inductive result (A : Type) :=
  | Ok (a : A)
  | Raise (e : exn).
Arguments Ok {A} a.
Arguments Raise {A} e.

(** Statements run in a world and either finish or raise. *)
Definition M (A : Type) : Type := world -> result A * world.

Definition ret {A} (a : A) : M A := fun w => (Ok a, w).

Definition bind {A B} (c : M A) (k : A -> M B) : M B :=
  fun w =>
    match c w with
    | (Ok a, w') => k a w'
    | (Raise e, w') => (Raise e, w')
    end.

Definition raise {A} (e : exn) : M A := fun w => (Raise e, w).

Declare Scope py_scope.
Delimit Scope py_scope with py.
Notation "x <- c ;; k" := (bind c (fun x => k))
  (at level 20, c at level 99, k at level 200, only parsing) : py_scope.
Notation "' p <- c ;; k" := (bind c (fun x => let 'p := x in k))
  (at level 20, p pattern, c at level 99, k at level 200, only parsing)
  : py_scope.
Notation "c ;; k" := (bind c (fun _ => k))
  (at level 100, k at level 200, right associativity, only parsing)
  : py_scope.
Local Open Scope py_scope.

Arguments py : simpl never.
Arguments clean_field : simpl never.

(** [for x in l: acc = body(acc, x)] *)
Fixpoint foldM {A S} (body : S -> A -> M S) (acc : S) (l : list A) : M S :=
  match l with
  | [] => ret acc
  | x :: l' => acc' <- body acc x ;; foldM body acc' l'
  end.

(** [try: body except Exception as e: handler(e)]; [SystemExit] is not an
    [Exception]. *)
Definition try_except {A} (body : M A) (handler : exn -> M A) : M A :=
  fun w =>
    match body w with
    | (Raise (SystemExit c), w') => (Raise (SystemExit c), w')
    | (Raise e, w') => handler e w'
    | (Ok a, w') => (Ok a, w')
    end.

Definition print (line : pystr) : M unit :=
  fun w => (Ok tt, World (stdout w ++ [line]) (files w)).

(** [with open(p, 'r', ...) as infile: rows = list(csv.reader(infile))] *)
Definition read_csv (p : path) : M (list row) :=
  fun w =>
    match files w !! p with
    | Some (CsvFile rows) => (Ok rows, w)
    | Some Directory => (Raise (IsADirectoryError p), w)
    | None => (Raise (FileNotFoundError p), w)
    end.

(** [open(p, 'w', ...)]: the file is created, or emptied. *)
Definition open_w (p : path) : M unit :=
  fun w =>
    match files w !! p with
    | Some Directory => (Raise (IsADirectoryError p), w)
    | _ => (Ok tt, World (stdout w) (<[p := CsvFile []]> (files w)))
    end.

Definition append_row (r : row) (e : entry) : entry :=
  match e with
  | CsvFile rows => CsvFile (rows ++ [r])
  | Directory => Directory
  end.

(** [writer.writerow(r)] on the writer of the file opened at [p]. *)
Definition writerow (p : path) (r : row) : M unit :=
  fun w => (Ok tt, World (stdout w) (alter (append_row r) p (files w))).

(** [Path.exists] *)
Definition exists_ (p : path) : M bool :=
  fun w => (Ok (bool_decide (is_Some (files w !! p))), w).

(** *** Formatting *)

Fixpoint uint_str (u : Decimal.uint) : pystr :=
  match u with
  | Decimal.Nil => []
  | Decimal.D0 u => 48%N :: uint_str u
  | Decimal.D1 u => 49%N :: uint_str u
  | Decimal.D2 u => 50%N :: uint_str u
  | Decimal.D3 u => 51%N :: uint_str u
  | Decimal.D4 u => 52%N :: uint_str u
  | Decimal.D5 u => 53%N :: uint_str u
  | Decimal.D6 u => 54%N :: uint_str u
  | Decimal.D7 u => 55%N :: uint_str u
  | Decimal.D8 u => 56%N :: uint_str u
  | Decimal.D9 u => 57%N :: uint_str u
  end.

(** [str(n)] for a non-negative [int]. *)
Definition str_of_nat (n : nat) : pystr := uint_str (Nat.to_uint n).

Definition cross_mark : pystr := [10060%N].      (* U+274C *)
Definition check_mark : pystr := [10003%N].      (* U+2713 *)
Definition arrow : pystr := [8594%N].            (* U+2192 *)
Definition newline : pystr := [10%N].

(** ** [process_csv] *)

(** [row[:-1]] *)
Definition drop_last (r : row) : row := take (length r - 1) r.

Definition msg_empty : pystr :=
  cross_mark ++ py " Error: Input file is empty".

Definition msg_changed (row_num : nat) (col_name original_value cleaned_value : pystr) : pystr :=
  py "  Row " ++ str_of_nat (row_num + 1) ++ py ", " ++ col_name ++ py ": '"
  ++ original_value ++ py "' " ++ arrow ++ py " '" ++ cleaned_value ++ py "'".

Definition msg_removed (row_num : nat) (col_name original_value : pystr) : pystr :=
  py "  Row " ++ str_of_nat (row_num + 1) ++ py ", " ++ col_name ++ py ": '"
  ++ original_value ++ py "' " ++ arrow ++ py " [removed completely]".

Definition msg_processed (rows_processed : nat) : pystr :=
  newline ++ check_mark ++ py " Processed " ++ str_of_nat rows_processed ++ py " rows".

Definition msg_cleaned (fields_cleaned : nat) : pystr :=
  check_mark ++ py " Cleaned " ++ str_of_nat fields_cleaned
  ++ py " fields across all columns".

Definition msg_saved (output_file : path) : pystr :=
  check_mark ++ py " Output saved to: " ++ output_file.

(** Lines 115-122: a field that the cleaning changed is counted and
    reported. *)
Definition report_change (header : row) (row_num col_idx : nat)
    (original_value cleaned_value : pystr) (fields_cleaned : nat) : M nat :=
  if negb (str_eqb original_value cleaned_value) then
    let col_name :=
      if col_idx <? length header then default [] (header !! col_idx)
      else py "Column " ++ str_of_nat (col_idx + 1) in
    (if negb (is_empty original_value) && negb (is_empty cleaned_value)
     then print (msg_changed row_num col_name original_value cleaned_value)
     else if negb (is_empty original_value) && is_empty cleaned_value
     then print (msg_removed row_num col_name original_value)
     else ret tt) ;;
    ret (fields_cleaned + 1)
  else ret fields_cleaned.

(** The body of the loop over [col_idx] (lines 112-124); the loop's
    variables are [cleaned_row] and [fields_cleaned]. *)
Definition clean_cell (header : row) (row_num : nat)
    (vars : row * nat) (col_idx : nat) : M (row * nat) :=
  let '(cleaned_row, fields_cleaned) := vars in
  match cleaned_row !! col_idx with
  | None => raise IndexError
  | Some original_value =>
      let cleaned_value := clean_field original_value in
      fields_cleaned <-
        report_change header row_num col_idx original_value cleaned_value
          fields_cleaned ;;
      ret (<[col_idx := cleaned_value]> cleaned_row, fields_cleaned)
  end.

(** The body of the loop over the rows (lines 105-127); the loop's
    variables are [rows_processed] and [fields_cleaned]. *)
Definition process_row (header : row) (output_file : path)
    (vars : nat * nat) (item : nat * row) : M (nat * nat) :=
  let '(rows_processed, fields_cleaned) := vars in
  let '(row_num, r) := item in
  if negb (is_empty r) then
    let cleaned_row := if 0 <? length r then drop_last r else r in
    '(cleaned_row, fields_cleaned) <-
      (if 0 <? row_num then
         foldM (clean_cell header row_num) (cleaned_row, fields_cleaned)
           (seq 0 (length cleaned_row))
       else ret (cleaned_row, fields_cleaned)) ;;
    writerow output_file cleaned_row ;;
    ret (rows_processed + 1, fields_cleaned)
  else ret (rows_processed, fields_cleaned).

(** [enumerate(l)] *)
Definition enumerate {A} (l : list A) : list (nat * A) :=
  zip (seq 0 (length l)) l.

Definition process_csv (input_file output_file : path) : M unit :=
  rows <- read_csv input_file ;;
  match rows with
  | [] => print msg_empty
  | header :: _ =>
      open_w output_file ;;
      '(rows_processed, fields_cleaned) <-
        foldM (process_row header output_file) (0, 0) (enumerate rows) ;;
      print (msg_processed rows_processed) ;;
      print (msg_cleaned fields_cleaned) ;;
      print (msg_saved output_file)
  end.

(** ** [main]

    Two things the script leaves to the Python library are parameters:
    the text [str(e)] of an exception, and the path
    [input_file.parent / f"{input_file.stem}_no_images{input_file.suffix}"]
    that [pathlib] derives from the input path. *)

Section Main.
Variable str_of_exn : exn -> pystr.
Variable no_images_path : path -> path.

Definition sys_exit {A} (code : nat) : M A := raise (SystemExit code).

Definition print_usage : M unit :=
  print (py "Usage: python clean-csv-menu-data-all-columns.py <input.csv> [output.csv]") ;;
  print (newline ++ py "This script will:") ;;
  print (py "  1. Remove the imageURL column (last column)") ;;
  print (py "  2. Clean unwanted phrases from ALL columns") ;;
  print (newline ++ py "Unwanted phrases removed:") ;;
  foldM (fun _ phrase => print (py "    - " ++ phrase)) tt UNWANTED_PHRASES ;;
  print (py "    - Percentage values (e.g., 93%, 100%)") ;;
  print (py "    - Count values in parentheses (e.g., (30), (8))") ;;
  print (newline ++ py "Example:") ;;
  print (py "  python clean-csv-menu-data-all-columns.py menu.csv menu_cleaned.csv").

(** [sys.argv[i]] *)
Definition argv_at (argv : list pystr) (i : nat) : M pystr :=
  match argv !! i with
  | Some a => ret a
  | None => raise IndexError
  end.

Definition main (argv : list pystr) : M unit :=
  (if length argv <? 2 then print_usage ;; sys_exit 1 else ret tt) ;;
  input_file <- argv_at argv 1 ;;
  found <- exists_ input_file ;;
  (if negb found then
     print (cross_mark ++ py " Error: Input file '" ++ input_file
            ++ py "' not found") ;;
     sys_exit 1
   else ret tt) ;;
  output_file <-
    (if 3 <=? length argv then argv_at argv 2
     else ret (no_images_path input_file)) ;;
  print (py "Processing: " ++ input_file) ;;
  print (py "Output to: " ++ output_file) ;;
  print (newline ++ py "Cleaning all columns...") ;;
  try_except (process_csv input_file output_file)
    (fun e =>
       print (newline ++ cross_mark ++ py " Error processing file: "
              ++ str_of_exn e) ;;
       sys_exit 1).

(** The status the interpreter exits with. *)
Definition exit_status {A} (r : result A) : nat :=
  match r with
  | Ok _ => 0
  | Raise (SystemExit code) => code
  | Raise _ => 1
  end.

(** Running the script: [if __name__ == "__main__": main()]. *)
Definition run (argv : list pystr) (w : world) : nat * world :=
  let '(r, w') := main argv w in (exit_status r, w').

(** The output path [main] settles on for the input path [input_file]. *)
Definition output_path (argv : list pystr) (input_file : path) : path :=
  default (no_images_path input_file) (argv !! 2).

End Main.

(** ** Vocabulary of the properties *)

(** The first character of [s] is in the class [p]. *)
Definition starts_with (p : N -> bool) (s : pystr) : bool :=
  match s with
  | c :: _ => p c
  | [] => false
  end.

(** The last character of [s] is in the class [p]. *)
Definition ends_with (p : N -> bool) (s : pystr) : bool :=
  starts_with p (rev s).

(** The row the loop writes for a non-empty row [r] numbered [row_num]. *)
Definition written_row (row_num : nat) (r : row) : row :=
  if 0 <? row_num then clean_field <$> drop_last r else drop_last r.

(** The rows the loop writes for [rows], the first of them numbered
    [row_num]. *)
Fixpoint output_rows (row_num : nat) (rows : list row) : list row :=
  match rows with
  | [] => []
  | r :: rest =>
      (if is_empty r then [] else [written_row row_num r])
      ++ output_rows (S row_num) rest
  end.

(** Row [r'] has exactly one field fewer than row [r]. *)
Definition one_field_fewer (r r' : row) : Prop :=
  length r = S (length r').

(** Row [r'] is row [r] without its last field: the fields before the last
    one, as they are or each passed through [clean_field]. *)
Definition last_field_removed (r r' : row) : Prop :=
  exists init last,
    r = init ++ [last] /\ (r' = init \/ r' = clean_field <$> init).

(** The rows of the input that have a field. *)
Definition nonempty_rows (rows : list row) : list row :=
  filter (fun r => r <> []) rows.

(** What [clean_field] returns once it is past its two early returns. *)
Definition tidied (field_value : pystr) : pystr :=
  let cleaned := remove_patterns (remove_phrases field_value) in
  if looks_like_tags field_value then tidy_tags cleaned else strip cleaned.

(** [q] and [s] differ at a position they both have. *)
Fixpoint clash (q s : pystr) : bool :=
  match q, s with
  | x :: q', c :: s' => if (c =? x)%N then clash q' s' else true
  | _, _ => false
  end.

(** [q] clashes with [s] at every position of [s]: whatever follows [s],
    no occurrence of [q] starts inside [s]. *)
Fixpoint absent (q s : pystr) : bool :=
  match s with
  | [] => true
  | _ :: s' => clash q s && absent q s'
  end.

(** A matcher that finds nothing at whitespace or at the end of the
    string. *)
Definition blind_to_space (m : pystr -> option nat) : Prop :=
  m [] = None /\ forall c t, is_space c = true -> m (c :: t) = None.

(** A matcher whose matches lie inside the string. *)
Definition sound_matcher (m : pystr -> option nat) : Prop :=
  forall s n, m s = Some n -> n <= length s.

(** No character of [s] is a decimal digit. *)
Definition no_digit (s : pystr) : bool :=
  forallb (fun c => negb (is_decimal c)) s.



(** * Properties *)

(** ** Strings *)

Lemma str_eqb_eq (a b : pystr) : str_eqb a b = true <-> a = b.
Proof. unfold str_eqb. apply bool_decide_eq_true. Qed.

Lemma is_empty_true {A} (l : list A) : is_empty l = true <-> l = [].
Proof. destruct l; simpl; split; congruence. Qed.

Lemma lstrip_by_starts p s : starts_with p (lstrip_by p s) = false.
Proof.
  induction s as [|c t IH]; simpl; [reflexivity|].
  destruct (p c) eqn:Hc; [exact IH|]. simpl. exact Hc.
Qed.

Lemma lstrip_by_snoc p l c :
  p c = false -> lstrip_by p (l ++ [c]) = lstrip_by p l ++ [c].
Proof.
  intros Hc. induction l as [|x l IH]; simpl.
  - rewrite Hc. reflexivity.
  - destruct (p x); [exact IH | reflexivity].
Qed.

Lemma rstrip_by_ends p s : ends_with p (rstrip_by p s) = false.
Proof.
  unfold ends_with, rstrip_by. rewrite rev_involutive.
  apply lstrip_by_starts.
Qed.

Lemma rstrip_by_starts p s :
  starts_with p s = false -> starts_with p (rstrip_by p s) = false.
Proof.
  destruct s as [|c t]; simpl; [reflexivity|]. intros Hc.
  unfold rstrip_by. simpl. rewrite lstrip_by_snoc by exact Hc.
  rewrite rev_app_distr. simpl. exact Hc.
Qed.

Lemma strip_by_starts p s : starts_with p (strip_by p s) = false.
Proof. apply rstrip_by_starts, lstrip_by_starts. Qed.

Lemma strip_by_ends p s : ends_with p (strip_by p s) = false.
Proof. apply rstrip_by_ends. Qed.

Lemma tidied_strip field_value : exists s, tidied field_value = strip s.
Proof.
  unfold tidied, tidy_tags. destruct (looks_like_tags field_value); eauto.
Qed.

(** C10: for every string, the value of [clean_field] neither starts nor
    ends with whitespace, and is not a non-empty string of whitespace. *)
Theorem clean_field_trimmed (field_value : pystr) :
  starts_with is_space (clean_field field_value) = false
  /\ ends_with is_space (clean_field field_value) = false
  /\ isspace (clean_field field_value) = false.
Proof.
  unfold clean_field.
  destruct (is_empty field_value) eqn:He.
  { apply is_empty_true in He. subst. repeat split. }
  destruct (existsb _ UNWANTED_PHRASES); [repeat split|].
  fold (tidied field_value).
  destruct (tidied_strip field_value) as [s Hs]. rewrite Hs.
  destruct (is_empty (strip s) || isspace (strip s)) eqn:Hw; [repeat split|].
  apply orb_false_iff in Hw as [_ Hw].
  split; [apply strip_by_starts|]. split; [apply strip_by_ends | exact Hw].
Qed.

(** C5: a field that, trimmed, is one of the unwanted phrases is cleaned
    to the empty string. *)
Theorem clean_field_only_phrase (field_value : pystr) :
  strip field_value ∈ UNWANTED_PHRASES -> clean_field field_value = [].
Proof.
  intros Hin. unfold clean_field.
  destruct (is_empty field_value) eqn:He.
  { apply is_empty_true in He. subst. reflexivity. }
  destruct (existsb _ UNWANTED_PHRASES) eqn:Hex; [reflexivity|].
  exfalso. apply not_true_iff_false in Hex. apply Hex.
  apply existsb_exists. exists (strip field_value). split.
  - apply list_elem_of_In. exact Hin.
  - apply str_eqb_eq. reflexivity.
Qed.

Lemma clean_field_only_phrase_witness :
  strip (py "  Plus small ") ∈ UNWANTED_PHRASES
  /\ clean_field (py "  Plus small ") = [].
Proof.
  assert (H : strip (py "  Plus small ") ∈ UNWANTED_PHRASES).
  { vm_compute. apply list_elem_of_here. }
  split; [exact H | exact (clean_field_only_phrase _ H)].
Defined.

(** C6: ["93% (30) great"] is cleaned to ["great"]: the two patterns take
    the percentage and the count away, the field does not look like a tags
    field, and what is left is trimmed. *)
Theorem clean_field_percentage_count :
  remove_phrases (py "93% (30) great") = py "93% (30) great"
  /\ re_sub re_percentage [] (py "93% (30) great") = py " (30) great"
  /\ re_sub re_count [] (py " (30) great") = py "  great"
  /\ looks_like_tags (py "93% (30) great") = false
  /\ clean_field (py "93% (30) great") = py "great".
Proof. vm_compute. repeat split. Qed.

(** C7: ["a;;b"] is cleaned to ["a;b"]: the field has a semicolon, so it is
    tidied as a tags field, and the two adjacent semicolons become one. *)
Theorem clean_field_double_semicolon :
  looks_like_tags (py "a;;b") = true
  /\ re_sub re_dup_semicolon (py ";") (py "a;;b") = py "a;b"
  /\ clean_field (py "a;;b") = py "a;b".
Proof. vm_compute. repeat split. Qed.

(** ** [process_csv] *)

Lemma world_eta w : World (stdout w) (files w) = w.
Proof. destruct w; reflexivity. Qed.

Lemma report_change_run header row_num col_idx original cleaned n w :
  exists n' report,
    report_change header row_num col_idx original cleaned n w
    = (Ok n', World (stdout w ++ report) (files w)).
Proof.
  unfold report_change.
  destruct (negb (str_eqb original cleaned)).
  - cbv zeta.
    destruct (negb (is_empty original) && negb (is_empty cleaned));
      [|destruct (negb (is_empty original) && is_empty cleaned)];
      unfold bind, print, ret; cbn [stdout files].
    + eexists _, [_]. reflexivity.
    + eexists _, [_]. reflexivity.
    + eexists _, []. rewrite app_nil_r, world_eta. reflexivity.
  - exists n, []. unfold ret. rewrite app_nil_r, world_eta. reflexivity.
Qed.

(** The loop over the columns cleans every field of the row, in place, and
    never leaves the row's range. *)
Lemma clean_cells_run header row_num (todo : row) :
  forall (done : row) (n : nat) (w : world),
    exists n' report,
      foldM (clean_cell header row_num) ((clean_field <$> done) ++ todo, n)
        (seq (length done) (length todo)) w
      = (Ok (clean_field <$> (done ++ todo), n'),
         World (stdout w ++ report) (files w)).
Proof.
  induction todo as [|x todo IH]; intros done n w.
  - exists n, []. simpl. rewrite !app_nil_r, world_eta. reflexivity.
  - simpl foldM. unfold bind at 1.
    set (loop := foldM (clean_cell header row_num)).
    unfold clean_cell. subst loop.
    rewrite list_lookup_middle by (rewrite length_fmap; reflexivity).
    assert (Hins : <[length done := clean_field x]> ((clean_field <$> done) ++ x :: todo)
                   = (clean_field <$> (done ++ [x])) ++ todo).
    { replace (length done) with (length (clean_field <$> done) + 0)
        by (rewrite length_fmap; lia).
      rewrite insert_app_r, fmap_app, <- app_assoc. reflexivity. }
    rewrite Hins.
    assert (Hseq : S (length done) = length (done ++ [x]))
      by (rewrite length_app; simpl; lia).
    rewrite Hseq.
    assert (Happ : done ++ x :: todo = (done ++ [x]) ++ todo)
      by (rewrite <- app_assoc; reflexivity).
    rewrite Happ.
    destruct (report_change_run header row_num (length done) x
                (clean_field x) n w) as (n1 & rep1 & Hrep).
    cbv zeta. unfold bind at 1. rewrite Hrep. unfold ret at 1.
    destruct (IH (done ++ [x]) n1 (World (stdout w ++ rep1) (files w)))
      as (n' & rep & ->).
    exists n', (rep1 ++ rep). cbn [stdout files].
    rewrite (app_assoc (stdout w)). reflexivity.
Qed.

(** The loop over the rows appends [output_rows] to the open file and counts
    the rows that have a field. *)
Lemma process_rows_run header output_file (rows : list row) :
  forall (row_num rows_processed fields_cleaned : nat) (w : world)
         (fs : gmap path entry) (acc : list row),
    files w = <[output_file := CsvFile acc]> fs ->
    exists n' report,
      foldM (process_row header output_file) (rows_processed, fields_cleaned)
        (zip (seq row_num (length rows)) rows) w
      = (Ok (rows_processed + length (nonempty_rows rows), n'),
         World (stdout w ++ report)
           (<[output_file := CsvFile (acc ++ output_rows row_num rows)]> fs)).
Proof.
  induction rows as [|r rows IH];
    intros row_num rows_processed fields_cleaned w fs acc Hfs.
  - exists fields_cleaned, []. simpl. unfold ret.
    rewrite !app_nil_r, Nat.add_0_r, <- Hfs, world_eta. reflexivity.
  - simpl zip. simpl foldM. unfold bind at 1.
    set (loop := foldM (process_row header output_file)).
    unfold process_row. subst loop.
    destruct r as [|c r'].
    + simpl. unfold ret.
      destruct (IH (S row_num) rows_processed fields_cleaned w fs acc Hfs)
        as (n' & rep & ->).
      exists n', rep. reflexivity.
    + cbn [is_empty negb].
      change (0 <? length (c :: r')) with true. cbv iota.
      set (r := c :: r').
      assert (Hne : nonempty_rows (r :: rows) = r :: nonempty_rows rows)
        by (apply filter_cons_True; discriminate).
      rewrite Hne.
      assert (Hcells : exists n1 rep1,
        (if 0 <? row_num
         then foldM (clean_cell header row_num) (drop_last r, fields_cleaned)
                (seq 0 (length (drop_last r)))
         else ret (drop_last r, fields_cleaned)) w
        = (Ok (written_row row_num r, n1),
           World (stdout w ++ rep1) (files w))).
      { unfold written_row. destruct (0 <? row_num).
        - apply (clean_cells_run header row_num (drop_last r) [] fields_cleaned w).
        - exists fields_cleaned, []. unfold ret.
          rewrite app_nil_r, world_eta. reflexivity. }
      destruct Hcells as (n1 & rep1 & Hcells).
      unfold bind at 1. rewrite Hcells.
      unfold bind at 1. unfold writerow at 1. cbn [files stdout].
      rewrite Hfs, alter_insert_eq. cbn [append_row]. unfold ret at 1.
      edestruct (IH (S row_num) (rows_processed + 1) n1
                   (World (stdout w ++ rep1)
                      (<[output_file := CsvFile (acc ++ [written_row row_num r])]> fs))
                   fs (acc ++ [written_row row_num r]) eq_refl)
        as (n' & rep & ->).
      exists n', (rep1 ++ rep). simpl.
      rewrite <- !app_assoc. simpl.
      replace (rows_processed + 1 + length (nonempty_rows rows))
        with (rows_processed + S (length (nonempty_rows rows))) by lia.
      reflexivity.
Qed.

(** A run of [process_csv] on a file that has rows, writing to a path that
    is not a directory. *)
Lemma process_csv_run input_file output_file (w : world) (rows : list row) :
  files w !! input_file = Some (CsvFile rows) ->
  rows <> [] ->
  files w !! output_file <> Some Directory ->
  exists fields_cleaned report,
    process_csv input_file output_file w
    = (Ok tt,
       World (stdout w ++ report
              ++ [msg_processed (length (nonempty_rows rows));
                  msg_cleaned fields_cleaned;
                  msg_saved output_file])
         (<[output_file := CsvFile (output_rows 0 rows)]> (files w))).
Proof.
  intros Hin Hrows Hout. unfold process_csv.
  unfold bind at 1. unfold read_csv at 1. rewrite Hin.
  destruct rows as [|header rest]; [congruence|].
  unfold bind at 1. unfold open_w at 1.
  assert (Hopen : match files w !! output_file with
                  | Some Directory => (Raise (IsADirectoryError output_file), w)
                  | _ => (Ok tt, World (stdout w)
                                   (<[output_file := CsvFile []]> (files w)))
                  end
                  = (Ok tt, World (stdout w)
                              (<[output_file := CsvFile []]> (files w)))).
  { destruct (files w !! output_file) as [[|]|]; congruence. }
  rewrite Hopen. clear Hopen.
  unfold bind at 1. unfold enumerate.
  edestruct (process_rows_run header output_file (header :: rest) 0 0 0
               (World (stdout w) (<[output_file := CsvFile []]> (files w)))
               (files w) [] eq_refl) as (n' & rep & ->).
  exists n', rep. unfold bind, print. simpl.
  rewrite <- !app_assoc. reflexivity.
Qed.

Lemma length_drop_last (r : row) : length (drop_last r) = length r - 1.
Proof. unfold drop_last. rewrite length_take. lia. Qed.

Lemma length_written_row row_num (r : row) :
  length (written_row row_num r) = length r - 1.
Proof.
  unfold written_row. destruct (0 <? row_num);
    rewrite ?length_fmap; apply length_drop_last.
Qed.

Lemma output_rows_one_field_fewer (rows : list row) :
  forall row_num,
    Forall2 one_field_fewer (nonempty_rows rows) (output_rows row_num rows).
Proof.
  induction rows as [|r rows IH]; intros row_num; [constructor|].
  destruct r as [|c r'].
  - unfold nonempty_rows. rewrite filter_cons_False by (intros H; apply H; reflexivity).
    apply IH.
  - unfold nonempty_rows. rewrite filter_cons_True by discriminate.
    simpl. constructor; [|apply IH].
    unfold one_field_fewer. rewrite length_written_row. simpl. lia.
Qed.

Lemma output_rows_app (before after : list row) :
  forall row_num,
    output_rows row_num (before ++ after)
    = output_rows row_num before
      ++ output_rows (row_num + length before) after.
Proof.
  induction before as [|r before IH]; intros row_num; simpl.
  - rewrite Nat.add_0_r. reflexivity.
  - rewrite IH, <- app_assoc. do 3 f_equal. lia.
Qed.

Lemma nonempty_rows_skip (before after : list row) :
  nonempty_rows (before ++ [] :: after)
  = nonempty_rows before ++ nonempty_rows after.
Proof.
  unfold nonempty_rows. rewrite filter_app.
  rewrite filter_cons_False by (intros H; apply H; reflexivity).
  reflexivity.
Qed.

(** C2, as stated, fails on a file with a blank line: the row read from
    the blank line has no row in the output. *)
Lemma every_row_one_field_fewer_counterexample :
  let rows := [[py "name"; py "imageURL"]; []; [py "Pie"; py "http://x"]] in
  let w := World [] {[ py "menu.csv" := CsvFile rows ]} in
  let w' := (process_csv (py "menu.csv") (py "out.csv") w).2 in
  files w' !! py "out.csv" = Some (CsvFile [[py "name"]; [py "Pie"]])
  /\ ~ Forall2 one_field_fewer rows [[py "name"]; [py "Pie"]].
Proof.
  split.
  - vm_compute. reflexivity.
  - intros H. apply Forall2_length in H. discriminate H.
Qed.

Lemma drop_last_snoc (init : row) (last : pystr) :
  drop_last (init ++ [last]) = init.
Proof.
  unfold drop_last. rewrite length_app. cbn [length].
  replace (length init + 1 - 1) with (length init) by lia.
  apply take_app_length.
Qed.

Lemma written_row_last_field_removed row_num (r : row) :
  r <> [] -> last_field_removed r (written_row row_num r).
Proof.
  intros Hr. destruct (exists_last Hr) as (init & last & ->).
  exists init, last. split; [reflexivity|].
  unfold written_row. rewrite drop_last_snoc.
  destruct (0 <? row_num); [right | left]; reflexivity.
Qed.

Lemma output_rows_last_field_removed (rows : list row) :
  forall row_num,
    Forall2 (fun r r' => one_field_fewer r r' /\ last_field_removed r r')
      (nonempty_rows rows) (output_rows row_num rows).
Proof.
  induction rows as [|r rows IH]; intros row_num; [constructor|].
  destruct r as [|c r'].
  - unfold nonempty_rows.
    rewrite filter_cons_False by (intros H; apply H; reflexivity).
    apply IH.
  - unfold nonempty_rows. rewrite filter_cons_True by discriminate.
    simpl. constructor; [|apply IH]. split.
    + unfold one_field_fewer. rewrite length_written_row. simpl. lia.
    + apply written_row_last_field_removed. discriminate.
Qed.

(** C2, amended: every row of the input that has a field has its row in
    the output, in the same order: the row without its last field, so with
    exactly one field fewer, the fields that are left as they are or
    cleaned. *)
Theorem process_csv_one_field_fewer input_file output_file (w : world)
    (rows : list row) :
  files w !! input_file = Some (CsvFile rows) ->
  rows <> [] ->
  files w !! output_file <> Some Directory ->
  exists out w',
    process_csv input_file output_file w = (Ok tt, w')
    /\ files w' !! output_file = Some (CsvFile out)
    /\ Forall2 (fun r r' => one_field_fewer r r' /\ last_field_removed r r')
         (nonempty_rows rows) out.
Proof.
  intros Hin Hrows Hout.
  destruct (process_csv_run _ _ _ _ Hin Hrows Hout) as (n & rep & ->).
  eexists _, _. split; [reflexivity|]. cbn [files]. split.
  - apply lookup_insert_eq.
  - apply output_rows_last_field_removed.
Qed.

Lemma process_csv_one_field_fewer_witness :
  let rows := [[py "name"; py "tags"; py "imageURL"]; [];
               [py "Pie"; py "hot"; py "http://x"]] in
  let w := World [] {[ py "menu.csv" := CsvFile rows ]} in
  exists out w',
    process_csv (py "menu.csv") (py "out.csv") w = (Ok tt, w')
    /\ files w' !! py "out.csv" = Some (CsvFile out)
    /\ Forall2 (fun r r' => one_field_fewer r r' /\ last_field_removed r r')
         [[py "name"; py "tags"; py "imageURL"];
          [py "Pie"; py "hot"; py "http://x"]] out
    /\ out = [[py "name"; py "tags"]; [py "Pie"; py "hot"]].
Proof.
  intros rows w.
  destruct (process_csv_one_field_fewer (py "menu.csv") (py "out.csv") w rows)
    as (out & w' & Hrun & Hfile & Hall).
  - vm_compute. reflexivity.
  - discriminate.
  - vm_compute. discriminate.
  - exists out, w'. split; [exact Hrun|]. split; [exact Hfile|].
    split; [exact Hall|].
    assert (Hw : w' = (process_csv (py "menu.csv") (py "out.csv") w).2)
      by (rewrite Hrun; reflexivity).
    rewrite Hw in Hfile. vm_compute in Hfile.
    injection Hfile as <-. vm_compute. reflexivity.
Defined.

(** C3: on an input file without rows [process_csv] prints the error
    message, the cross mark U+274C and [" Error: Input file is empty"], and
    returns; no file is created or written. *)
Theorem process_csv_empty_input input_file output_file (w : world) :
  files w !! input_file = Some (CsvFile []) ->
  process_csv input_file output_file w
  = (Ok tt,
     World (stdout w ++ [10060%N :: py " Error: Input file is empty"])
       (files w)).
Proof.
  intros Hin. unfold process_csv, bind, read_csv. rewrite Hin. reflexivity.
Qed.

Lemma process_csv_empty_input_witness :
  let w := World [] {[ py "empty.csv" := CsvFile [] ]} in
  files w !! py "empty.csv" = Some (CsvFile [])
  /\ process_csv (py "empty.csv") (py "out.csv") w
     = (Ok tt,
        World [10060%N :: py " Error: Input file is empty"]
          {[ py "empty.csv" := CsvFile [] ]}).
Proof.
  intros w.
  assert (H : files w !! py "empty.csv" = Some (CsvFile []))
    by (vm_compute; reflexivity).
  split; [exact H | exact (process_csv_empty_input _ (py "out.csv") w H)].
Defined.

(** C8, as stated, fails on a file that starts with a blank line: the first
    row of the output is then the first data row, cleaned. *)
Lemma header_kept_counterexample :
  let header : row := [] in
  let rows := [header; [py "Plus small"; py "Soup"; py "http://x"]] in
  let w := World [] {[ py "menu.csv" := CsvFile rows ]} in
  let w' := (process_csv (py "menu.csv") (py "out.csv") w).2 in
  files w' !! py "out.csv" = Some (CsvFile [[ []; py "Soup"]])
  /\ head [[ []; py "Soup"]] <> Some (drop_last header).
Proof.
  split.
  - vm_compute. reflexivity.
  - vm_compute. discriminate.
Qed.

(** C8, amended: when the header row of the input has a field, the first
    row of the output is the header row without its last field, the other
    fields as they are in the input. *)
Theorem process_csv_header_kept input_file output_file (w : world)
    (header : row) (rest : list row) :
  files w !! input_file = Some (CsvFile (header :: rest)) ->
  header <> [] ->
  files w !! output_file <> Some Directory ->
  exists data w',
    process_csv input_file output_file w = (Ok tt, w')
    /\ files w' !! output_file = Some (CsvFile (drop_last header :: data)).
Proof.
  intros Hin Hheader Hout.
  destruct (process_csv_run _ _ _ _ Hin ltac:(discriminate) Hout)
    as (n & rep & ->).
  exists (output_rows 1 rest). eexists. split; [reflexivity|].
  cbn [files]. rewrite lookup_insert_eq.
  destruct header as [|c header']; [congruence|]. reflexivity.
Qed.

Lemma process_csv_header_kept_witness :
  let header := [py "Plus small"; py "tags"; py "imageURL"] in
  let rest := [[py "Plus small"; py "a;;b"; py "http://x"]] in
  let w := World [] {[ py "menu.csv" := CsvFile (header :: rest) ]} in
  exists data w',
    process_csv (py "menu.csv") (py "out.csv") w = (Ok tt, w')
    /\ files w' !! py "out.csv"
       = Some (CsvFile ([py "Plus small"; py "tags"] :: data)).
Proof.
  intros header rest w.
  apply (process_csv_header_kept (py "menu.csv") (py "out.csv") w header rest).
  - vm_compute. reflexivity.
  - discriminate.
  - vm_compute. discriminate.
Defined.

(** C9: a row without fields leaves nothing in the output, whatever the
    rows before and after it, and the total of processed rows counts the
    other rows only. *)
Theorem process_csv_skips_empty_row input_file output_file (w : world)
    (before after : list row) :
  files w !! input_file = Some (CsvFile (before ++ [] :: after)) ->
  files w !! output_file <> Some Directory ->
  exists fields_cleaned report,
    process_csv input_file output_file w
    = (Ok tt,
       World (stdout w ++ report
              ++ [msg_processed (length (nonempty_rows before)
                                 + length (nonempty_rows after));
                  msg_cleaned fields_cleaned;
                  msg_saved output_file])
         (<[output_file :=
              CsvFile (output_rows 0 before
                       ++ output_rows (S (length before)) after)]> (files w))).
Proof.
  intros Hin Hout.
  destruct (process_csv_run _ _ _ _ Hin ltac:(by destruct before) Hout)
    as (n & rep & ->).
  exists n, rep.
  rewrite nonempty_rows_skip, length_app, output_rows_app. reflexivity.
Qed.

Lemma process_csv_skips_empty_row_witness :
  let before := [[py "name"; py "imageURL"]] in
  let after := [[py "Pie "; py "http://x"]] in
  let w := World [] {[ py "menu.csv" := CsvFile (before ++ [] :: after) ]} in
  exists fields_cleaned report,
    process_csv (py "menu.csv") (py "out.csv") w
    = (Ok tt,
       World (stdout w ++ report
              ++ [msg_processed 2; msg_cleaned fields_cleaned;
                  msg_saved (py "out.csv")])
         (<[py "out.csv" := CsvFile [[py "name"]; [py "Pie"]]]> (files w))).
Proof.
  intros before after w.
  apply (process_csv_skips_empty_row (py "menu.csv") (py "out.csv") w
           before after).
  - vm_compute. reflexivity.
  - vm_compute. discriminate.
Defined.

(** ** [main] *)

Lemma bind_ok {A B} (c : M A) (k : A -> M B) w a w' :
  c w = (Ok a, w') -> bind c k w = k a w'.
Proof. intros H. unfold bind. rewrite H. reflexivity. Qed.

Lemma bind_raise {A B} (c : M A) (k : A -> M B) w e w' :
  c w = (Raise e, w') -> bind c k w = (Raise e, w').
Proof. intros H. unfold bind. rewrite H. reflexivity. Qed.

Lemma print_usage_ok w :
  exists report, print_usage w = (Ok tt, World (stdout w ++ report) (files w)).
Proof.
  eexists. unfold print_usage, UNWANTED_PHRASES, foldM, bind, print, ret.
  cbn [stdout files]. rewrite <- !app_assoc. reflexivity.
Qed.

Lemma process_csv_directory input_file output_file w :
  files w !! input_file = Some Directory ->
  process_csv input_file output_file w
  = (Raise (IsADirectoryError input_file), w).
Proof.
  intros Hin. unfold process_csv, bind, read_csv. rewrite Hin. reflexivity.
Qed.

Lemma process_csv_output_directory input_file output_file w rows :
  files w !! input_file = Some (CsvFile rows) ->
  rows <> [] ->
  files w !! output_file = Some Directory ->
  process_csv input_file output_file w
  = (Raise (IsADirectoryError output_file), w).
Proof.
  intros Hin Hrows Hout. unfold process_csv, bind, read_csv. rewrite Hin.
  destruct rows; [congruence|]. unfold open_w. rewrite Hout. reflexivity.
Qed.

Section MainProperties.
Variable str_of_exn : exn -> pystr.
Variable no_images_path : path -> path.

(** The exit status of a run, over the failures this file models.  It is 1
    for a usage error, a missing input, and an exception of [process_csv]
    (here: the input or the output path is a directory); it is 0 when
    [process_csv] returns, which it also does, after its error message, on
    an input without rows. *)
Lemma run_exit_status (argv : list pystr) (w : world) :
  (run str_of_exn no_images_path argv w).1
  = match argv !! 1 with
    | None => 1
    | Some input_file =>
        match files w !! input_file with
        | None => 1
        | Some Directory => 1
        | Some (CsvFile []) => 0
        | Some (CsvFile (_ :: _)) =>
            match files w !! output_path no_images_path argv input_file with
            | Some Directory => 1
            | _ => 0
            end
        end
    end.
Proof.
  unfold run, main.
  destruct argv as [|script [|input_file rest]].
  - destruct (print_usage_ok w) as [rep Hu].
    cbn [length Nat.ltb Nat.leb]. 
    erewrite bind_raise
      by (erewrite bind_ok by exact Hu; reflexivity).
    reflexivity.
  - destruct (print_usage_ok w) as [rep Hu].
    cbn [length Nat.ltb Nat.leb].
    erewrite bind_raise
      by (erewrite bind_ok by exact Hu; reflexivity).
    reflexivity.
  - set (argv := script :: input_file :: rest).
    change (length argv <? 2) with false. cbv iota.
    change (argv !! 1) with (Some input_file).
    erewrite bind_ok by reflexivity.
    erewrite bind_ok by reflexivity.
    erewrite bind_ok by reflexivity.
    destruct (files w !! input_file) as [[rows|]|] eqn:Hin.
    3: { erewrite bind_raise by reflexivity. reflexivity. }
    all: erewrite bind_ok by reflexivity.
    all: erewrite (bind_ok _ _ _ (output_path no_images_path argv input_file))
           by (unfold argv; destruct rest; reflexivity).
    all: do 3 (erewrite bind_ok by reflexivity).
    all: unfold try_except; cbn [stdout files].
    + destruct rows as [|header rows].
      * unfold process_csv, bind, read_csv. cbn [files]. rewrite Hin.
  reflexivity.
      * destruct (files w !! output_path no_images_path argv input_file)
          as [[out|]|] eqn:Hout.
        -- match goal with
           | |- context [process_csv ?i ?o ?w0] =>
               destruct (process_csv_run i o w0 (header :: rows))
                 as (n & rep & ->);
               [exact Hin | discriminate
               | cbn [files]; rewrite Hout; discriminate | reflexivity]
           end.
        -- erewrite process_csv_output_directory
             by first [exact Hin | exact Hout | discriminate].
           reflexivity.
        -- match goal with
           | |- context [process_csv ?i ?o ?w0] =>
               destruct (process_csv_run i o w0 (header :: rows))
                 as (n & rep & ->);
               [exact Hin | discriminate
               | cbn [files]; rewrite Hout; discriminate | reflexivity]
           end.
    + erewrite process_csv_directory by exact Hin. reflexivity.
Qed.

End MainProperties.

(** C1, at an empty input file: the script prints the error message of
    [process_csv] and exits with status 0. *)
Theorem run_empty_file_exit_status (str_of_exn : exn -> pystr)
    (no_images_path : path -> path) :
  let argv := [py "clean-csv-menu-data-all-columns.py"; py "empty.csv"] in
  let w := World [] {[ py "empty.csv" := CsvFile [] ]} in
  run str_of_exn no_images_path argv w
  = (0, World [py "Processing: empty.csv";
               py "Output to: " ++ no_images_path (py "empty.csv");
               newline ++ py "Cleaning all columns...";
               msg_empty]
          (files w)).
Proof. reflexivity. Qed.

(** C4, at fields with three semicolons, or commas, in a row: the field is
    tidied as a tags field, and two of the three are left. *)
Theorem clean_field_leaves_duplicates :
  looks_like_tags (py "a;;;b") = true
  /\ re_sub re_dup_semicolon (py ";") (py "a;;;b") = py "a;;b"
  /\ clean_field (py "a;;;b") = py "a;;b"
  /\ clean_field (py "Vegan; Plus small; Thumb up outline; Spicy")
     = py "Vegan; ; Spicy"
  /\ clean_field (py "a,,,b;c") = py "a,,b;c".
Proof. vm_compute. repeat split. Qed.

(** ** The early returns of [clean_field]

    The two early returns are shortcuts: the steps after them give the same
    value.  For the empty field this is immediate; a field that is one of
    the phrases between whitespace loses the phrase, and what is left, all
    whitespace, is tidied away. *)

Lemma lstrip_by_split p s :
  exists ws, s = ws ++ lstrip_by p s /\ forallb p ws = true.
Proof.
  induction s as [|c t (ws & Heq & Hws)]; simpl.
  - exists []. split; reflexivity.
  - destruct (p c) eqn:Hc.
    + exists (c :: ws). simpl. rewrite Hc, Hws. split; [congruence | reflexivity].
    + exists []. split; reflexivity.
Qed.

Lemma forallb_rev p (l : pystr) : forallb p l = true -> forallb p (rev l) = true.
Proof.
  rewrite !forallb_forall. intros H x Hx. apply H, in_rev. exact Hx.
Qed.

Lemma rstrip_by_split p s :
  exists ws, s = rstrip_by p s ++ ws /\ forallb p ws = true.
Proof.
  unfold rstrip_by. destruct (lstrip_by_split p (rev s)) as (ws & Heq & Hws).
  exists (rev ws). split; [|apply forallb_rev; exact Hws].
  rewrite <- rev_app_distr, <- Heq, rev_involutive. reflexivity.
Qed.

Lemma strip_split s :
  exists ws1 ws2,
    s = ws1 ++ strip s ++ ws2
    /\ forallb is_space ws1 = true /\ forallb is_space ws2 = true.
Proof.
  unfold strip, strip_by.
  destruct (lstrip_by_split is_space s) as (ws1 & H1 & Hws1).
  destruct (rstrip_by_split is_space (lstrip_by is_space s)) as (ws2 & H2 & Hws2).
  exists ws1, ws2. split; [|split; assumption].
  rewrite <- H2. exact H1.
Qed.

Lemma is_space_cases c :
  is_space c = true ->
  In c [9; 10; 11; 12; 13; 28; 29; 30; 31; 32; 133; 160; 5760; 8192; 8193;
        8194; 8195; 8196; 8197; 8198; 8199; 8200; 8201; 8202; 8232; 8233;
        8239; 8287; 12288]%N.
Proof.
  unfold is_space, in_range.
  rewrite !orb_true_iff, !andb_true_iff, !N.leb_le, !N.eqb_eq.
  simpl. lia.
Qed.

Lemma space_not_decimal c : is_space c = true -> is_decimal c = false.
Proof.
  intros H. apply is_space_cases in H. simpl in H.
  repeat (destruct H as [<- | H]; [vm_compute; reflexivity|]).
  destruct H.
Qed.

Lemma space_not_char k c :
  is_space k = false -> is_space c = true -> is_char k c = false.
Proof.
  intros Hk Hc. unfold is_char. destruct (N.eqb_spec c k); [congruence | reflexivity].
Qed.

Lemma blind_prefix_len x q :
  is_space x = false -> blind_to_space (prefix_len (x :: q)).
Proof.
  intros Hx. split; [reflexivity|]. intros c t Hc. simpl.
  destruct (N.eqb_spec c x); [congruence | reflexivity].
Qed.

Lemma blind_match_One cls p :
  (forall c, is_space c = true -> cls c = false) ->
  blind_to_space (match_len (One cls :: p)).
Proof.
  intros Hcls. split; [reflexivity|]. intros c t Hc. simpl.
  rewrite Hcls by exact Hc. reflexivity.
Qed.

Lemma blind_match_Plus cls p :
  (forall c, is_space c = true -> cls c = false) ->
  blind_to_space (match_len (Plus cls :: p)).
Proof.
  intros Hcls. split; [reflexivity|]. intros c t Hc. simpl.
  rewrite Hcls by exact Hc. reflexivity.
Qed.

(** A blind matcher lets leading whitespace through. *)
Lemma scan_replace_spaces m repl ws t :
  blind_to_space m ->
  forallb is_space ws = true ->
  scan_replace m repl (ws ++ t) 0 = ws ++ scan_replace m repl t 0.
Proof.
  intros [_ Hm]. induction ws as [|c ws IH]; [reflexivity|].
  simpl forallb. intros [Hc Hws]%andb_true_iff.
  simpl. rewrite Hm by exact Hc. rewrite IH by exact Hws. reflexivity.
Qed.

Lemma scan_replace_all_spaces m repl ws :
  blind_to_space m ->
  forallb is_space ws = true ->
  scan_replace m repl ws 0 = ws.
Proof.
  intros Hm Hws. rewrite <- (app_nil_r ws) at 1.
  rewrite scan_replace_spaces by assumption.
  destruct Hm as [Hnil _]. simpl. rewrite Hnil, app_nil_r. reflexivity.
Qed.

Lemma clash_prefix_len q : forall s t,
  clash q s = true -> prefix_len q (s ++ t) = None.
Proof.
  induction q as [|x q IH]; intros [|c s] t; simpl; try discriminate.
  destruct (c =? x)%N; [|reflexivity].
  intros H. rewrite IH by exact H. reflexivity.
Qed.

Lemma scan_replace_absent q repl s t :
  absent q s = true ->
  scan_replace (prefix_len q) repl (s ++ t) 0
  = s ++ scan_replace (prefix_len q) repl t 0.
Proof.
  induction s as [|c s IH]; [reflexivity|].
  intros [Hc Hs]%andb_true_iff.
  change ((c :: s) ++ t) with (c :: s ++ t). cbn [scan_replace].
  change (c :: s ++ t) with ((c :: s) ++ t).
  rewrite clash_prefix_len by exact Hc.
  rewrite IH by exact Hs. reflexivity.
Qed.

Lemma scan_replace_skip m repl s t :
  scan_replace m repl (s ++ t) (length s) = scan_replace m repl t 0.
Proof.
  induction s as [|c s IH]; [destruct t; reflexivity|]. simpl. exact IH.
Qed.

Lemma prefix_len_here q t : prefix_len q (q ++ t) = Some (length q).
Proof.
  induction q as [|x q IH]; [reflexivity|]. simpl.
  rewrite N.eqb_refl, IH. reflexivity.
Qed.

Lemma scan_replace_here x q repl t :
  scan_replace (prefix_len (x :: q)) repl ((x :: q) ++ t) 0
  = repl ++ scan_replace (prefix_len (x :: q)) repl t 0.
Proof.
  change ((x :: q) ++ t) with (x :: q ++ t). cbn [scan_replace].
  change (x :: q ++ t) with ((x :: q) ++ t).
  rewrite prefix_len_here. cbn [length].
  rewrite scan_replace_skip. reflexivity.
Qed.

Lemma forallb_space_app (ws1 ws2 : pystr) :
  forallb is_space ws1 = true -> forallb is_space ws2 = true ->
  forallb is_space (ws1 ++ ws2) = true.
Proof. intros H1 H2. rewrite forallb_app, H1, H2. reflexivity. Qed.

(** Removing the phrases one after the other from a phrase [p] between
    whitespace: the phrases before [p] in the list do not occur, [p] goes,
    and the phrases after it find only whitespace. *)
Lemma remove_phrases_fold (before after : list pystr) x p ws1 ws2 :
  Forall (fun q => blind_to_space (prefix_len q) /\ absent q (x :: p) = true)
    before ->
  Forall (fun q => blind_to_space (prefix_len q)) after ->
  is_space x = false ->
  forallb is_space ws1 = true ->
  forallb is_space ws2 = true ->
  fold_left (fun cleaned phrase => str_replace phrase [] cleaned)
    (before ++ (x :: p) :: after) (ws1 ++ (x :: p) ++ ws2)
  = ws1 ++ ws2.
Proof.
  intros Hbefore Hafter Hx H1 H2. rewrite fold_left_app.
  assert (Hb : fold_left (fun cleaned phrase => str_replace phrase [] cleaned)
                 before (ws1 ++ (x :: p) ++ ws2)
               = ws1 ++ (x :: p) ++ ws2).
  { induction Hbefore as [|q before [Hq Habs] _ IH]; [reflexivity|].
    cbn [fold_left]. unfold str_replace at 2.
    rewrite scan_replace_spaces by assumption.
    rewrite scan_replace_absent by exact Habs.
    rewrite scan_replace_all_spaces by assumption.
    exact IH. }
  rewrite Hb. cbn [fold_left]. unfold str_replace at 2.
  rewrite scan_replace_spaces by (try apply blind_prefix_len; assumption).
  rewrite scan_replace_here.
  rewrite scan_replace_all_spaces by (try apply blind_prefix_len; assumption).
  cbn [app].
  assert (Hws : forallb is_space (ws1 ++ ws2) = true)
    by (apply forallb_space_app; assumption).
  revert Hws. generalize (ws1 ++ ws2). intros ws Hws.
  induction Hafter as [|q after Hq _ IH]; [reflexivity|].
  cbn [fold_left]. unfold str_replace at 2.
  rewrite scan_replace_all_spaces by assumption. exact IH.
Qed.

Lemma remove_phrases_padded ws1 ws2 p :
  p ∈ UNWANTED_PHRASES ->
  forallb is_space ws1 = true ->
  forallb is_space ws2 = true ->
  remove_phrases (ws1 ++ p ++ ws2) = ws1 ++ ws2.
Proof.
  intros Hp H1 H2. unfold remove_phrases. revert Hp. unfold UNWANTED_PHRASES.
  rewrite !elem_of_cons, elem_of_nil.
  intros [-> | [-> | [-> | [-> | [-> | []]]]]].
  - apply (remove_phrases_fold [] _ _ _ ws1 ws2); try assumption;
      repeat constructor; try (apply blind_prefix_len; reflexivity).
  - apply (remove_phrases_fold [_] _ _ _ ws1 ws2); try assumption;
      repeat constructor; try (apply blind_prefix_len; reflexivity).
  - apply (remove_phrases_fold [_; _] _ _ _ ws1 ws2); try assumption;
      repeat constructor; try (apply blind_prefix_len; reflexivity).
  - apply (remove_phrases_fold [_; _; _] _ _ _ ws1 ws2); try assumption;
      repeat constructor; try (apply blind_prefix_len; reflexivity).
  - apply (remove_phrases_fold [_; _; _; _] _ _ _ ws1 ws2); try assumption;
      repeat constructor; try (apply blind_prefix_len; reflexivity).
Qed.

Lemma contains_here (q ws1 t : pystr) : contains q (ws1 ++ q ++ t) = true.
Proof.
  induction ws1 as [|c ws1 IH].
  - destruct q as [|x q]; [destruct t; reflexivity|].
    change ([] ++ (x :: q) ++ t) with (x :: q ++ t). cbn [contains].
    change (x :: q ++ t) with ((x :: q) ++ t).
    rewrite prefix_len_here. reflexivity.
  - change ((c :: ws1) ++ q ++ t) with (c :: ws1 ++ q ++ t). cbn [contains].
    rewrite IH. destruct (prefix_len q _); reflexivity.
Qed.

Lemma looks_like_tags_padded ws1 ws2 p :
  p ∈ UNWANTED_PHRASES -> looks_like_tags (ws1 ++ p ++ ws2) = true.
Proof.
  intros Hp. unfold looks_like_tags. apply orb_true_iff. right.
  apply existsb_exists. exists p. split.
  - apply list_elem_of_In. exact Hp.
  - apply contains_here.
Qed.

Lemma remove_patterns_spaces ws :
  forallb is_space ws = true -> remove_patterns ws = ws.
Proof.
  intros Hws. unfold remove_patterns, REGEX_PATTERNS. cbn [fold_left].
  unfold re_sub, re_percentage, re_count.
  rewrite (scan_replace_all_spaces _ _ ws)
    by (try apply blind_match_Plus, space_not_decimal; assumption).
  apply scan_replace_all_spaces; [|assumption].
  apply blind_match_One. intros c Hc. apply space_not_char; [reflexivity | exact Hc].
Qed.

Lemma star_len_all cls s :
  forallb cls s = true -> star_len cls (match_len []) s = Some (length s).
Proof.
  induction s as [|c s IH]; [reflexivity|].
  intros [Hc Hs]%andb_true_iff. cbn [star_len].
  rewrite Hc, IH by exact Hs. reflexivity.
Qed.

(** A string of whitespace is one match of [\s+]. *)
Lemma re_sub_spaces_all repl ws :
  forallb is_space ws = true ->
  re_sub re_spaces repl ws = if is_empty ws then [] else repl.
Proof.
  destruct ws as [|c ws]; [reflexivity|].
  intros [Hc Hws]%andb_true_iff.
  unfold re_sub, re_spaces. cbn [scan_replace match_len].
  rewrite Hc, star_len_all by exact Hws. cbn [fmap option_fmap option_map].
  rewrite <- (app_nil_r ws) at 1. rewrite scan_replace_skip.
  cbn. rewrite app_nil_r. reflexivity.
Qed.

Lemma tidy_tags_spaces ws :
  forallb is_space ws = true -> tidy_tags ws = [].
Proof.
  intros Hws. unfold tidy_tags, re_sub at 3 4, re_dup_semicolon, re_dup_comma.
  assert (Hblind : forall k p,
            is_space k = false -> blind_to_space (match_len (One (is_char k) :: p))).
  { intros k p Hk. apply blind_match_One. intros c Hc.
    apply space_not_char; assumption. }
  rewrite (scan_replace_all_spaces _ _ ws) by (try apply Hblind; done).
  rewrite (scan_replace_all_spaces _ _ ws) by (try apply Hblind; done).
  rewrite re_sub_spaces_all by exact Hws.
  destruct (is_empty ws); reflexivity.
Qed.

Lemma tidied_only_phrase field_value :
  strip field_value ∈ UNWANTED_PHRASES -> tidied field_value = [].
Proof.
  intros Hp.
  destruct (strip_split field_value) as (ws1 & ws2 & Heq & H1 & H2).
  revert Hp Heq. generalize (strip field_value). intros p Hp ->.
  unfold tidied. cbv zeta.
  rewrite looks_like_tags_padded by exact Hp.
  rewrite remove_phrases_padded by assumption.
  rewrite remove_patterns_spaces by (apply forallb_space_app; assumption).
  apply tidy_tags_spaces, forallb_space_app; assumption.
Qed.

Lemma isspace_starts s : isspace s = true -> starts_with is_space s = true.
Proof.
  destruct s as [|c s]; [discriminate|]. unfold isspace. simpl.
  intros [Hc _]%andb_true_iff. exact Hc.
Qed.

(** [clean_field] is phrase removal, pattern removal, and then the tidying
    of a tags field or a plain trim, for every field: the early returns and
    the final test for an empty or blank result change nothing. *)
Lemma clean_field_tidied (field_value : pystr) :
  clean_field field_value = tidied field_value.
Proof.
  unfold clean_field.
  destruct (is_empty field_value) eqn:He.
  { apply is_empty_true in He. subst. reflexivity. }
  destruct (existsb _ UNWANTED_PHRASES) eqn:Hex.
  { symmetry. apply tidied_only_phrase.
    apply existsb_exists in Hex as (p & Hp & Heq).
    apply str_eqb_eq in Heq. rewrite Heq. apply list_elem_of_In. exact Hp. }
  fold (tidied field_value).
  destruct (tidied_strip field_value) as [s Hs]. rewrite Hs.
  destruct (is_empty (strip s)) eqn:Hempty.
  { apply is_empty_true in Hempty. rewrite Hempty. reflexivity. }
  destruct (isspace (strip s)) eqn:Hblank; [|reflexivity].
  apply isspace_starts in Hblank.
  unfold strip in Hblank. rewrite strip_by_starts in Hblank. discriminate.
Qed.

(** X1: for every field, [clean_field] is phrase removal, then pattern
    removal, then the tidying of lines 59-67 when the original field has a
    semicolon or an unwanted phrase and a plain [strip()] otherwise.  The
    early return for a field that is only an unwanted phrase and the final
    test for a blank result are shortcuts that change no value. *)
Theorem clean_field_early_returns (field_value : pystr) :
  clean_field field_value
  = let cleaned := remove_patterns (remove_phrases field_value) in
    if contains (py ";") field_value
       || existsb (fun phrase => contains phrase field_value) UNWANTED_PHRASES
    then
      strip
        (re_sub re_empty_parens []
           (strip_chars (py " ;,")
              (re_sub re_spaces (py " ")
                 (re_sub re_dup_comma (py ",")
                    (re_sub re_dup_semicolon (py ";") cleaned)))))
    else strip cleaned.
Proof. exact (clean_field_tidied field_value). Qed.

(** ** More on [clean_field] *)

Lemma lstrip_by_all p s : forallb p s = true -> lstrip_by p s = [].
Proof.
  induction s as [|c s IH]; [reflexivity|].
  intros [Hc Hs]%andb_true_iff. simpl. rewrite Hc. apply IH, Hs.
Qed.

Lemma strip_spaces ws : forallb is_space ws = true -> strip ws = [].
Proof.
  intros Hws. unfold strip, strip_by. rewrite lstrip_by_all by exact Hws.
  reflexivity.
Qed.

(** X2: a field of whitespace, the empty field among them, is cleaned to
    the empty string. *)
Theorem clean_field_blank (field_value : pystr) :
  forallb is_space field_value = true -> clean_field field_value = [].
Proof.
  intros Hws. unfold clean_field.
  destruct (is_empty field_value) eqn:He.
  { apply is_empty_true in He. exact He. }
  rewrite strip_spaces by exact Hws.
  change (existsb (str_eqb []) UNWANTED_PHRASES) with false. cbv iota.
  assert (Hph : remove_phrases field_value = field_value).
  { unfold remove_phrases, UNWANTED_PHRASES. cbn [fold_left]. unfold str_replace.
    do 5 (rewrite (scan_replace_all_spaces _ _ field_value)
            by (try assumption; apply blind_prefix_len; reflexivity)).
    reflexivity. }
  rewrite Hph, remove_patterns_spaces by exact Hws.
  rewrite tidy_tags_spaces, strip_spaces by exact Hws.
  destruct (looks_like_tags field_value); reflexivity.
Qed.

Lemma clean_field_blank_witness :
  forallb is_space [32; 9; 160; 8195]%N = true
  /\ clean_field [32; 9; 160; 8195]%N = [].
Proof.
  assert (H : forallb is_space [32; 9; 160; 8195]%N = true) by reflexivity.
  split; [exact H | exact (clean_field_blank _ H)].
Defined.

Lemma str_replace_absent q repl s :
  contains q s = false -> str_replace q repl s = s.
Proof.
  unfold str_replace. induction s as [|c s IH]; cbn [contains scan_replace].
  - destruct (prefix_len q []); [discriminate | reflexivity].
  - destruct (prefix_len q (c :: s)); [discriminate|].
    intros H. rewrite IH by exact H. reflexivity.
Qed.

Lemma remove_phrases_absent s :
  existsb (fun phrase => contains phrase s) UNWANTED_PHRASES = false ->
  remove_phrases s = s.
Proof.
  unfold remove_phrases. generalize UNWANTED_PHRASES.
  intros phrases. induction phrases as [|q phrases IH]; [reflexivity|].
  cbn [existsb fold_left]. intros [Hq Hrest]%orb_false_iff.
  rewrite str_replace_absent by exact Hq. apply IH, Hrest.
Qed.

(** X3: a field without a semicolon and without an unwanted phrase loses
    the matches of the two patterns and its surrounding whitespace, and
    nothing else: inner whitespace, commas and parentheses stay as they
    are. *)
Theorem clean_field_plain (field_value : pystr) :
  looks_like_tags field_value = false ->
  clean_field field_value = strip (remove_patterns field_value).
Proof.
  intros Htags. rewrite clean_field_tidied. unfold tidied. rewrite Htags.
  apply orb_false_iff in Htags as [_ Hph].
  rewrite remove_phrases_absent by exact Hph. reflexivity.
Qed.

Lemma clean_field_plain_witness :
  looks_like_tags (py " Fish (2 pcs),  chips 50% ") = false
  /\ clean_field (py " Fish (2 pcs),  chips 50% ")
     = strip (remove_patterns (py " Fish (2 pcs),  chips 50% ")).
Proof.
  assert (H : looks_like_tags (py " Fish (2 pcs),  chips 50% ") = false)
    by (vm_compute; reflexivity).
  split; [exact H | exact (clean_field_plain _ H)].
Defined.

(** A scan whose matcher finds nothing on strings of the class [ok] copies
    such a string. *)
Lemma scan_replace_none (ok : N -> bool) m repl s :
  (forall t, forallb ok t = true -> m t = None) ->
  forallb ok s = true ->
  scan_replace m repl s 0 = s.
Proof.
  intros Hm. induction s as [|c s IH]; intros Hs; cbn [scan_replace].
  - rewrite Hm by reflexivity. reflexivity.
  - rewrite Hm by exact Hs.
    apply andb_true_iff in Hs as [_ Hs]. rewrite IH by exact Hs. reflexivity.
Qed.

Lemma remove_patterns_no_digit s : no_digit s = true -> remove_patterns s = s.
Proof.
  intros Hs. unfold remove_patterns, REGEX_PATTERNS. cbn [fold_left].
  unfold re_sub, no_digit in *.
  assert (H1 : forall t, forallb (fun c => negb (is_decimal c)) t = true ->
                 match_len re_percentage t = None).
  { intros [|c t]; cbn [forallb match_len re_percentage]; [reflexivity|].
    intros [Hc _]%andb_true_iff. apply negb_true_iff in Hc. rewrite Hc.
    reflexivity. }
  assert (H2 : forall t, forallb (fun c => negb (is_decimal c)) t = true ->
                 match_len re_count t = None).
  { intros [|c [|d t]]; cbn [forallb match_len re_count]; try reflexivity.
    - destruct (is_char 40 c); reflexivity.
    - intros [_ [Hd _]%andb_true_iff]%andb_true_iff.
      apply negb_true_iff in Hd. rewrite Hd.
      destruct (is_char 40 c); reflexivity. }
  rewrite (scan_replace_none _ _ [] s H1 Hs).
  apply (scan_replace_none _ _ [] s H2 Hs).
Qed.

Lemma lstrip_by_id p s : starts_with p s = false -> lstrip_by p s = s.
Proof. destruct s as [|c s]; simpl; [reflexivity|]. intros ->. reflexivity. Qed.

Lemma strip_by_id p s :
  starts_with p s = false -> ends_with p s = false -> strip_by p s = s.
Proof.
  intros Hs He. unfold strip_by, rstrip_by. rewrite (lstrip_by_id p s Hs).
  unfold ends_with in He. rewrite lstrip_by_id by exact He.
  apply rev_involutive.
Qed.

(** X4: legitimate content is preserved: a field without a semicolon, an
    unwanted phrase or a digit, and without whitespace at its ends, is
    returned as it is. *)
Theorem clean_field_unchanged (field_value : pystr) :
  looks_like_tags field_value = false ->
  no_digit field_value = true ->
  starts_with is_space field_value = false ->
  ends_with is_space field_value = false ->
  clean_field field_value = field_value.
Proof.
  intros Htags Hdigits Hs He.
  rewrite clean_field_tidied. unfold tidied. rewrite Htags.
  apply orb_false_iff in Htags as [_ Hph].
  rewrite remove_phrases_absent by exact Hph.
  rewrite remove_patterns_no_digit by exact Hdigits.
  apply strip_by_id; assumption.
Qed.

Lemma clean_field_unchanged_witness :
  let field_value := py "Fish & chips (large),  with peas" in
  looks_like_tags field_value = false
  /\ no_digit field_value = true
  /\ starts_with is_space field_value = false
  /\ ends_with is_space field_value = false
  /\ clean_field field_value = field_value.
Proof.
  intros field_value.
  assert (H1 : looks_like_tags field_value = false) by (vm_compute; reflexivity).
  assert (H2 : no_digit field_value = true) by (vm_compute; reflexivity).
  assert (H3 : starts_with is_space field_value = false) by reflexivity.
  assert (H4 : ends_with is_space field_value = false) by reflexivity.
  exact (conj H1 (conj H2 (conj H3 (conj H4
           (clean_field_unchanged field_value H1 H2 H3 H4))))).
Defined.

(** *** Lengths *)

Lemma sound_prefix_len q : sound_matcher (prefix_len q).
Proof.
  induction q as [|x q IH]; intros [|c s] n; simpl; try discriminate.
  - intros [= <-]. lia.
  - intros [= <-]. lia.
  - destruct (c =? x)%N; [|discriminate].
    destruct (prefix_len q s) as [k|] eqn:Hk; [|discriminate].
    intros [= <-]. apply IH in Hk. lia.
Qed.

Lemma sound_star_len cls k : sound_matcher k -> sound_matcher (star_len cls k).
Proof.
  intros Hk s. induction s as [|c s IH]; intros n; cbn [star_len].
  - apply Hk.
  - destruct (cls c); [|apply Hk].
    destruct (star_len cls k s) as [j|] eqn:Hj; [|apply Hk].
    intros [= <-]. pose proof (IH j eq_refl). simpl. lia.
Qed.

Lemma sound_match_len p : sound_matcher (match_len p).
Proof.
  induction p as [|[cls|cls|cls] p IH]; cbn [match_len].
  - intros s n [= <-]. lia.
  - intros [|c s] n; [discriminate|]. destruct (cls c); [|discriminate].
    destruct (match_len p s) as [k|] eqn:Hk; [|discriminate].
    intros [= <-]. apply IH in Hk. simpl. lia.
  - apply sound_star_len, IH.
  - intros [|c s] n; [discriminate|]. destruct (cls c); [|discriminate].
    destruct (star_len cls (match_len p) s) as [k|] eqn:Hk; [|discriminate].
    intros [= <-]. apply (sound_star_len _ _ IH) in Hk. simpl. lia.
Qed.

(** A replacement that is no longer than what it replaces does not
    lengthen the string. *)
Lemma length_scan_replace m repl :
  sound_matcher m ->
  (forall s n, m s = Some n -> length repl <= n) ->
  forall s k, k <= length s ->
    length (scan_replace m repl s k) + k <= length s.
Proof.
  intros Hsound Hrepl s. induction s as [|c s IH]; intros k Hk.
  - destruct k; [|simpl in Hk; lia]. cbn [scan_replace].
    destruct (m []) as [[|n]|] eqn:Hm.
    + apply Hrepl in Hm. rewrite app_nil_r. simpl. lia.
    + apply Hsound in Hm. simpl in Hm. lia.
    + simpl. lia.
  - destruct k as [|k]; cbn [scan_replace].
    + destruct (m (c :: s)) as [[|n]|] eqn:Hm.
      * apply Hrepl in Hm. rewrite length_app. simpl.
        specialize (IH 0 ltac:(lia)). lia.
      * pose proof (Hsound _ _ Hm) as Hn. apply Hrepl in Hm. simpl in Hn.
        rewrite length_app. specialize (IH n ltac:(lia)). simpl. lia.
      * specialize (IH 0 ltac:(lia)). simpl. lia.
    + simpl in Hk. specialize (IH k ltac:(lia)). simpl. lia.
Qed.

Lemma length_str_replace_empty q s : length (str_replace q [] s) <= length s.
Proof.
  pose proof (length_scan_replace (prefix_len q) [] (sound_prefix_len q)
                ltac:(intros; simpl; lia) s 0 ltac:(lia)).
  unfold str_replace. lia.
Qed.

Lemma length_re_sub_empty p s : length (re_sub p [] s) <= length s.
Proof.
  pose proof (length_scan_replace (match_len p) [] (sound_match_len p)
                ltac:(intros; simpl; lia) s 0 ltac:(lia)).
  unfold re_sub. lia.
Qed.

(** A pattern that starts with a single character or a [+] matches at
    least one character. *)
Lemma match_len_positive a p s n :
  (exists cls, a = One cls \/ a = Plus cls) ->
  match_len (a :: p) s = Some n -> 1 <= n.
Proof.
  intros [cls [-> | ->]]; cbn [match_len];
    (destruct s as [|c s]; [discriminate|]);
    (destruct (cls c); [|discriminate]);
    match goal with |- S <$> ?o = _ -> _ => destruct o end;
    try discriminate; intros [= <-]; lia.
Qed.

Lemma length_re_sub_one a p x s :
  (exists cls, a = One cls \/ a = Plus cls) ->
  length (re_sub (a :: p) [x] s) <= length s.
Proof.
  intros Ha.
  pose proof (length_scan_replace (match_len (a :: p)) [x]
                (sound_match_len (a :: p))
                (fun s n => match_len_positive a p s n Ha) s 0 ltac:(lia)).
  unfold re_sub. lia.
Qed.

Lemma length_lstrip_by p s : length (lstrip_by p s) <= length s.
Proof.
  induction s as [|c s IH]; simpl; [lia|]. destruct (p c); simpl; lia.
Qed.

Lemma length_strip_by p s : length (strip_by p s) <= length s.
Proof.
  unfold strip_by, rstrip_by. rewrite length_rev.
  pose proof (length_lstrip_by p (rev (lstrip_by p s))) as H1.
  rewrite length_rev in H1.
  pose proof (length_lstrip_by p s). lia.
Qed.

Lemma length_remove_phrases s : length (remove_phrases s) <= length s.
Proof.
  unfold remove_phrases. generalize UNWANTED_PHRASES. intros phrases.
  revert s. induction phrases as [|q phrases IH]; intros s; cbn [fold_left].
  - lia.
  - pose proof (IH (str_replace q [] s)).
    pose proof (length_str_replace_empty q s). lia.
Qed.

Lemma length_remove_patterns s : length (remove_patterns s) <= length s.
Proof.
  unfold remove_patterns, REGEX_PATTERNS. cbn [fold_left].
  pose proof (length_re_sub_empty re_count (re_sub re_percentage [] s)).
  pose proof (length_re_sub_empty re_percentage s). lia.
Qed.

Lemma length_tidy_tags s : length (tidy_tags s) <= length s.
Proof.
  unfold tidy_tags, strip, strip_chars.
  set (s1 := re_sub re_dup_semicolon (py ";") s).
  set (s2 := re_sub re_dup_comma (py ",") s1).
  set (s3 := re_sub re_spaces (py " ") s2).
  set (s4 := strip_by _ s3).
  pose proof (length_re_sub_one _ _ 59%N s (ex_intro _ _ (or_introl eq_refl))
              : length s1 <= length s).
  pose proof (length_re_sub_one _ _ 44%N s1 (ex_intro _ _ (or_introl eq_refl))
              : length s2 <= length s1).
  pose proof (length_re_sub_one _ _ 32%N s2 (ex_intro _ _ (or_intror eq_refl))
              : length s3 <= length s2).
  pose proof (length_strip_by _ s3 : length s4 <= length s3).
  pose proof (length_re_sub_empty re_empty_parens s4).
  pose proof (length_strip_by is_space (re_sub re_empty_parens [] s4)).
  lia.
Qed.

(** X5: the cleaning never lengthens a field. *)
Theorem clean_field_length (field_value : pystr) :
  length (clean_field field_value) <= length field_value.
Proof.
  rewrite clean_field_tidied. unfold tidied.
  pose proof (length_remove_phrases field_value).
  pose proof (length_remove_patterns (remove_phrases field_value)).
  destruct (looks_like_tags field_value).
  - pose proof (length_tidy_tags (remove_patterns (remove_phrases field_value))).
    lia.
  - pose proof (length_strip_by is_space
                  (remove_patterns (remove_phrases field_value))).
    unfold strip. lia.
Qed.

(** ** More on [process_csv] *)

Lemma output_rows_data (rows : list row) :
  forall row_num,
    output_rows (S row_num) rows
    = (fun r => clean_field <$> drop_last r) <$> nonempty_rows rows.
Proof.
  induction rows as [|r rows IH]; intros row_num; [reflexivity|].
  destruct r as [|c r'].
  - unfold nonempty_rows.
    rewrite filter_cons_False by (intros H; apply H; reflexivity).
    apply IH.
  - unfold nonempty_rows. rewrite filter_cons_True by discriminate.
    cbn [output_rows is_empty app fmap list_fmap]. f_equal. apply IH.
Qed.

(** X7: the rows after row 0: each one that has a field is written without
    its last field and with every other field cleaned by [clean_field], in
    the order of the input. *)
Theorem process_csv_data_rows input_file output_file (w : world)
    (header : row) (data : list row) :
  files w !! input_file = Some (CsvFile (header :: data)) ->
  files w !! output_file <> Some Directory ->
  exists w',
    process_csv input_file output_file w = (Ok tt, w')
    /\ files w' !! output_file
       = Some (CsvFile
                 ((if is_empty header then [] else [drop_last header])
                  ++ ((fun r => clean_field <$> drop_last r)
                        <$> nonempty_rows data))).
Proof.
  intros Hin Hout.
  destruct (process_csv_run _ _ _ _ Hin ltac:(discriminate) Hout)
    as (n & rep & ->).
  eexists. split; [reflexivity|]. cbn [files].
  rewrite lookup_insert_eq. cbn [output_rows].
  rewrite output_rows_data. reflexivity.
Qed.

Lemma process_csv_data_rows_witness :
  let header := [py "name"; py "tags"; py "imageURL"] in
  let data := [[py " Pie "; py "hot;; 93% (30)"; py "http://x"]; [];
               [py "Plus small"; py "http://y"]] in
  let w := World [] {[ py "menu.csv" := CsvFile (header :: data) ]} in
  exists w',
    process_csv (py "menu.csv") (py "out.csv") w = (Ok tt, w')
    /\ files w' !! py "out.csv"
       = Some (CsvFile [[py "name"; py "tags"]; [py "Pie"; py "hot"]; [[]]]).
Proof.
  intros header data w.
  apply (process_csv_data_rows (py "menu.csv") (py "out.csv") w header data).
  - vm_compute. reflexivity.
  - vm_compute. discriminate.
Defined.

(** *** The report *)







(** ** In place, totals, and the whitespace of a tags field *)



(** X11: the total of processed rows that [process_csv] prints is the
    number of rows it has written to the output file. *)
Theorem process_csv_processed_total input_file output_file (w : world)
    (rows : list row) :
  files w !! input_file = Some (CsvFile rows) ->
  rows <> [] ->
  files w !! output_file <> Some Directory ->
  exists out fields_cleaned report w',
    process_csv input_file output_file w = (Ok tt, w')
    /\ files w' !! output_file = Some (CsvFile out)
    /\ stdout w'
       = stdout w ++ report
         ++ [msg_processed (length out); msg_cleaned fields_cleaned;
             msg_saved output_file].
Proof.
  intros Hin Hrows Hout.
  destruct (process_csv_run _ _ _ _ Hin Hrows Hout) as (n & rep & ->).
  exists (output_rows 0 rows), n, rep. eexists. split; [reflexivity|].
  cbn [files stdout]. split; [apply lookup_insert_eq|].
  rewrite (Forall2_length _ _ _ (output_rows_one_field_fewer rows 0)).
  reflexivity.
Qed.

Lemma process_csv_processed_total_witness :
  let rows := [[py "name"; py "imageURL"]; []; [py "Pie"; py "http://x"]] in
  let w := World [] {[ py "menu.csv" := CsvFile rows ]} in
  exists out fields_cleaned report w',
    process_csv (py "menu.csv") (py "out.csv") w = (Ok tt, w')
    /\ files w' !! py "out.csv" = Some (CsvFile out)
    /\ stdout w'
       = stdout w ++ report
         ++ [msg_processed (length out); msg_cleaned fields_cleaned;
             msg_saved (py "out.csv")].
Proof.
  intros rows w.
  apply (process_csv_processed_total (py "menu.csv") (py "out.csv") w rows).
  - vm_compute. reflexivity.
  - discriminate.
  - vm_compute. discriminate.
Defined.

Lemma Forall_scan_replace (P : N -> Prop) m repl s :
  Forall P repl -> Forall P s ->
  forall k, Forall P (scan_replace m repl s k).
Proof.
  intros Hrepl Hs. induction Hs as [|c s Hc Hs IH]; intros k.
  - destruct k; cbn [scan_replace]; [|constructor].
    destruct (m []) as [[|n]|]; rewrite ?app_nil_r; try assumption; constructor.
  - destruct k as [|k]; cbn [scan_replace]; [|apply IH].
    destruct (m (c :: s)) as [[|n]|].
    + apply Forall_app. split; [assumption|]. constructor; [assumption | apply IH].
    + apply Forall_app. split; [assumption | apply IH].
    + constructor; [assumption | apply IH].
Qed.

Lemma Forall_lstrip_by (P : N -> Prop) p s :
  Forall P s -> Forall P (lstrip_by p s).
Proof.
  induction 1 as [|c s Hc Hs IH]; simpl; [constructor|].
  destruct (p c); [exact IH | constructor; assumption].
Qed.

Lemma Forall_strip_by (P : N -> Prop) p s :
  Forall P s -> Forall P (strip_by p s).
Proof.
  intros Hs. unfold strip_by, rstrip_by.
  apply Forall_rev, Forall_lstrip_by, Forall_rev, Forall_lstrip_by, Hs.
Qed.

Lemma star_len_total cls s : is_Some (star_len cls (match_len []) s).
Proof.
  induction s as [|c s [n Hn]]; cbn [star_len]; [exists 0; reflexivity|].
  destruct (cls c); [|exists 0; reflexivity]. rewrite Hn. eauto.
Qed.

(** After [\s+] has been replaced by a space, a space is the only
    whitespace left. *)
Lemma re_sub_spaces_normal s :
  forall k,
    Forall (fun c => is_space c = true -> c = 32%N)
      (scan_replace (match_len re_spaces) (py " ") s k).
Proof.
  induction s as [|c s IH]; intros k.
  - destruct k; cbn; constructor.
  - destruct k as [|k]; cbn [scan_replace]; [|apply IH].
    change (match_len re_spaces (c :: s))
      with (if is_space c then S <$> star_len is_space (match_len []) s
            else None).
    destruct (is_space c) eqn:Hc.
    + destruct (star_len_total is_space s) as [n Hn]. rewrite Hn.
      cbn [fmap option_fmap option_map].
      apply Forall_app. split; [|apply IH].
      constructor; [reflexivity | constructor].
    + constructor; [congruence | apply IH].
Qed.

(** X6: in the value of a tags field, one with a semicolon or an unwanted
    phrase, every whitespace character is a plain space: tabs, line breaks
    and no-break spaces are gone. *)
Theorem clean_field_tags_whitespace (field_value : pystr) :
  looks_like_tags field_value = true ->
  Forall (fun c => is_space c = true -> c = 32%N) (clean_field field_value).
Proof.
  intros Htags. rewrite clean_field_tidied. unfold tidied. rewrite Htags.
  unfold tidy_tags, strip, strip_chars.
  apply Forall_strip_by. unfold re_sub at 1.
  apply Forall_scan_replace; [constructor|].
  apply Forall_strip_by. apply re_sub_spaces_normal.
Qed.

Lemma clean_field_tags_whitespace_witness :
  let field_value := [86; 101; 103; 97; 110; 9; 10; 59; 160; 104; 111; 116]%N in
  looks_like_tags field_value = true
  /\ Forall (fun c => is_space c = true -> c = 32%N) (clean_field field_value).
Proof.
  intros field_value.
  assert (H : looks_like_tags field_value = true) by (vm_compute; reflexivity).
  exact (conj H (clean_field_tags_whitespace field_value H)).
Defined.
